(** * Subtitle_Auto_Translator.py: the translation job of [Translator]

    A shallow embedding of class [Translator] of
    [src/Subtitle_Auto_Translator.py] (its constructor, [translate_srt],
    [start_translation], [stop_translation], [get_quota]), of the three
    [TranslatorGUI] handlers that write to a [Translator], of the two
    language tables, and of the window's start and stop handlers with the
    callbacks they pass on.

    What the program does to the outside world (HTTP requests, callbacks,
    log records, the pacing sleep, the saved file, message boxes, work
    handed to the thread pool) is recorded as a list of [event]s, in program
    order.  What the outside world does to the program (the reply to each
    request, the moment the user presses "Stop Translation", the content of
    the subtitle file) is a [World]. *)

From Stdlib Require Import List String Ascii Bool Arith ZArith QArith Lia.
From Stdlib Require Import Sorting.Sorted.
Import ListNotations.


#[local] Open Scope string_scope.
#[local] Open Scope nat_scope.
#[local] Open Scope list_scope.

(** ** Python strings

    A [str] is modelled by [string]; its characters are Rocq's 8-bit
    [ascii], read as the code points U+0000 to U+00FF, so that [len] is
    [String.length]. *)

Module PyStr.

(** [str.isspace] on one character, for code points below 256:
    U+0009..U+000D, U+001C..U+0020, U+0085 and U+00A0. *)
Definition isspace (c : ascii) : bool :=
  let n := nat_of_ascii c in
  ((9 <=? n) && (n <=? 13)) || ((28 <=? n) && (n <=? 32))
  || (n =? 133) || (n =? 160).

Fixpoint lstrip (s : string) : string :=
  match s with
  | EmptyString => EmptyString
  | String c s' => if isspace c then lstrip s' else s
  end.

(** [rstrip] keeps a character when it is not white space or when
    something is left of what follows it. *)
Fixpoint rstrip (s : string) : string :=
  match s with
  | EmptyString => EmptyString
  | String c s' =>
      match rstrip s' with
      | EmptyString => if isspace c then EmptyString else String c EmptyString
      | r => String c r
      end
  end.

(** [s.strip()] *)
Definition strip (s : string) : string := rstrip (lstrip s).

Fixpoint all_space (s : string) : bool :=
  match s with
  | EmptyString => true
  | String c s' => isspace c && all_space s'
  end.

(** [str.lower] on one character: only A..Z move.  (No character outside
    ASCII lowers to one of [.], [s], [r], [t], so the comparison with
    [".srt"] below is exact.) *)
Definition lower_char (c : ascii) : ascii :=
  let n := nat_of_ascii c in
  if (65 <=? n) && (n <=? 90) then ascii_of_nat (n + 32) else c.

Fixpoint lower (s : string) : string :=
  match s with
  | EmptyString => EmptyString
  | String c s' => String (lower_char c) (lower s')
  end.

(** [s.rfind(c)]: the highest index of [c] in [s], or -1. *)
Fixpoint rfind (c : ascii) (s : string) : Z :=
  match s with
  | EmptyString => (-1)%Z
  | String d s' =>
      let r := rfind c s' in
      if (0 <=? r)%Z then (r + 1)%Z
      else if Ascii.eqb c d then 0%Z else (-1)%Z
  end.

(** [s[lo:hi]] for [0 <= lo]. *)
Definition slice (s : string) (lo hi : nat) : string :=
  substring lo (hi - lo) s.

Fixpoint any (p : ascii -> bool) (s : string) : bool :=
  match s with
  | EmptyString => false
  | String c s' => p c || any p s'
  end.

(** [os.path.splitext] ([posixpath]: separator [/], extension separator
    [.]).  The extension starts at the last dot, provided that dot comes
    after the last separator and some character between the separator and
    the dot is not a dot (the library's loop that skips leading dots
    returns at the first such character). *)
Definition splitext (p : string) : string * string :=
  let sepIndex := rfind "/"%char p in
  let dotIndex := rfind "."%char p in
  if (sepIndex <? dotIndex)%Z then
    let filenameIndex := Z.to_nat (sepIndex + 1) in
    let dot := Z.to_nat dotIndex in
    if any (fun c => negb (Ascii.eqb c "."%char)) (slice p filenameIndex dot)
    then (slice p 0 dot, slice p dot (String.length p))
    else (p, EmptyString)
  else (p, EmptyString).

End PyStr.

(** ** Data *)

(** One entry of the subtitle file ([pysrt.SubRipItem]): its number, its
    timing span in milliseconds, and its text, the only attribute the
    program assigns. *)
Record SubRipItem : Type := mkItem {
  index : nat;
  start : nat;
  end_ : nat;
  text : string
}.

Definition set_text (sub : SubRipItem) (t : string) : SubRipItem :=
  {| index := index sub; start := start sub; end_ := end_ sub; text := t |}.

(** The arguments of one call of [translate_srt]. *)
Record Job : Type := mkJob {
  file_path : string;
  output_path : string;
  src_lang : string;
  dest_lang : string
}.

(** [concurrent.futures]: a submitted call is pending, running, finished or
    cancelled. *)
Inductive future_state : Type := Pending | Running | Finished | CancelledFuture.

Definition future_state_eqb (a b : future_state) : bool :=
  match a, b with
  | Pending, Pending | Running, Running | Finished, Finished
  | CancelledFuture, CancelledFuture => true
  | _, _ => false
  end.

(** [ThreadPoolExecutor(max_workers=n)] with everything submitted to it, in
    submission order.  [pool_id] tells the pools of one [Translator] apart
    ([set_thread_count] replaces the pool). *)
Record ThreadPoolExecutor : Type := mkPool {
  pool_id : nat;
  max_workers : nat;
  futures : list (Job * future_state)
}.

Definition running_count (ex : ThreadPoolExecutor) : nat :=
  List.length (filter (fun f => future_state_eqb (snd f) Running) (futures ex)).

(** [executor.submit]: the call is queued, and a worker thread takes it at
    once while fewer than [max_workers] calls are running.  The result is
    the pool and the position of the new future in it. *)
Definition submit (ex : ThreadPoolExecutor) (j : Job) : ThreadPoolExecutor * nat :=
  let st := if running_count ex <? max_workers ex then Running else Pending in
  ({| pool_id := pool_id ex; max_workers := max_workers ex;
      futures := futures ex ++ [(j, st)] |},
   List.length (futures ex)).

Fixpoint update_nth {A : Type} (n : nat) (f : A -> A) (l : list A) : list A :=
  match l, n with
  | [], _ => []
  | x :: l', O => f x :: l'
  | x :: l', S n' => x :: update_nth n' f l'
  end.

(** [Future.cancel]: only a pending call is cancelled. *)
Definition cancel (ex : ThreadPoolExecutor) (fut : nat) : ThreadPoolExecutor :=
  {| pool_id := pool_id ex; max_workers := max_workers ex;
     futures := update_nth fut
                  (fun f => match snd f with
                            | Pending => (fst f, CancelledFuture)
                            | _ => f
                            end) (futures ex) |}.

(** The attributes of a [Translator] that the program reads after the
    constructor ([config] is only written to [config.ini]). *)
Record Translator : Type := mkTranslator {
  deepl_api_key : option string;
  should_stop : bool;
  translated_count : nat;
  executor : ThreadPoolExecutor;
  quota : Z;
  used_quota : Z;
  (** the future of the last submitted call: its pool and its position there *)
  current_translation : option (nat * nat)
}.

Definition STATUS_TRANSLATION_COMPLETED : string := "Translation completed".

(** ** Events *)

Inductive log_record : Type :=
| TotalSubtitles (n : nat)       (* info: Total subtitles to translate: n *)
| HttpErrorOccurred              (* error: HTTP error occurred: ... *)
| RequestErrorOccurred           (* error: Error occurred during request: ... *)
| UnexpectedErrorOccurred        (* error: An unexpected error occurred: ... *)
| FileSaved (path : string)      (* info: Translated file saved at path *)
| TranslationCancelled.          (* info: Translation cancelled *)

Inductive event : Type :=
| Post (auth_key : option string) (txt source_lang target_lang : string)
| QuotaCallback (used : Z)
| ProgressCallback (fraction : Q)
| StatusCallback (status : string)
| ErrorCallback (message : string)
| Log (r : log_record)
| Sleep                          (* time.sleep(SLEEP_TIME) *)
| SaveFile (path : string) (subtitles : list SubRipItem)
| ShowErrorBox (message : string) (* messagebox.showerror *)
| Submit (j : Job).              (* executor.submit(self.translate_srt, ...) *)

(** ** Exceptions *)

(** The exceptions the loop body can raise. *)
Inductive exn : Type :=
| HTTPError              (* raise_for_status *)
| ConnectionError        (* requests.post, transport level *)
| ReadTimeout            (* requests.post, transport level *)
| JSONDecodeError        (* response.json() *)
| KeyError               (* translation['translations'], [...]['text'] *)
| IndexError             (* [...][0] *)
| TypeError              (* a subscript applied to a value of another type *)
| ZeroDivisionError.     (* translated_count / total_subtitles *)

(** The classes named by the three [except] clauses. *)
Inductive exn_class : Type := HTTPError_ | RequestException_ | Exception_.

(** [isinstance(e, cls)].  [HTTPError], [ConnectionError] and [ReadTimeout]
    derive from [RequestException]; every exception here derives from
    [Exception].  ([response.json()] raises a [ValueError] subclass; in
    recent versions of requests that class derives from [RequestException]
    too, which only changes the log record: the embedding takes it as not
    one.) *)
Definition isinstance (e : exn) (cls : exn_class) : bool :=
  match cls, e with
  | HTTPError_, HTTPError => true
  | HTTPError_, _ => false
  | RequestException_, (HTTPError | ConnectionError | ReadTimeout) => true
  | RequestException_, _ => false
  | Exception_, _ => true
  end.

(** ** The outside world *)

(** What comes back from one [requests.post]: the call raises, or there is
    a response with a status code, whose body either decodes
    ([response.json()['translations'][0]['text']] is the string) or makes
    the decoding raise. *)
Inductive reply : Type :=
| PostRaises (e : exn)
| Response (status_code : Z) (body : exn + string).

Record World : Type := mkWorld {
  (** the reply to the request for the entry at position [i] (from 0) *)
  reply_of : nat -> reply;
  (** whether the user presses "Stop Translation" ([stop_translation])
      after [i] entries have been processed and before the loop's next
      check of the flag *)
  stop_pressed : nat -> bool;
  (** [pysrt.open]: the entries of the file, [None] when opening raises *)
  disk : string -> option (list SubRipItem)
}.

(** ** Statements that may raise

    The body of the [try] runs on the [Translator] and on the entry the
    loop variable is bound to.  A statement changes them, leaves events
    behind, and returns a value or raises; what was done before a [raise]
    stays done. *)

Definition Mem : Type := (Translator * SubRipItem)%type.

Definition Stmt (A : Type) : Type := Mem -> Mem * list event * (exn + A).

Definition ret {A : Type} (a : A) : Stmt A := fun m => (m, [], inr a).

Definition raise {A : Type} (e : exn) : Stmt A := fun m => (m, [], inl e).

Definition bind {A B : Type} (c : Stmt A) (k : A -> Stmt B) : Stmt B :=
  fun m =>
    match c m with
    | (m1, ev1, inl e) => (m1, ev1, inl e)
    | (m1, ev1, inr a) =>
        match k a m1 with
        | (m2, ev2, r) => (m2, ev1 ++ ev2, r)
        end
    end.

Declare Scope stmt_scope.
Delimit Scope stmt_scope with stmt.
Notation "x <- c ;; k" := (bind c (fun x => k))
  (at level 61, c at next level, right associativity) : stmt_scope.
Notation "c ;; k" := (bind c (fun _ => k))
  (at level 61, right associativity) : stmt_scope.

Definition emit (e : event) : Stmt unit := fun m => (m, [e], inr tt).

Definition get_self : Stmt Translator := fun m => (m, [], inr (fst m)).

Definition get_subtitle : Stmt SubRipItem := fun m => (m, [], inr (snd m)).

Definition put_self (self : Translator) : Stmt unit :=
  fun m => ((self, snd m), [], inr tt).

Definition put_subtitle (sub : SubRipItem) : Stmt unit :=
  fun m => ((fst m, sub), [], inr tt).

(** Assignments to single attributes of [self]. *)

Definition with_should_stop (self : Translator) (b : bool) : Translator :=
  {| deepl_api_key := deepl_api_key self; should_stop := b;
     translated_count := translated_count self; executor := executor self;
     quota := quota self; used_quota := used_quota self;
     current_translation := current_translation self |}.

Definition with_translated_count (self : Translator) (n : nat) : Translator :=
  {| deepl_api_key := deepl_api_key self; should_stop := should_stop self;
     translated_count := n; executor := executor self;
     quota := quota self; used_quota := used_quota self;
     current_translation := current_translation self |}.

Definition with_used_quota (self : Translator) (n : Z) : Translator :=
  {| deepl_api_key := deepl_api_key self; should_stop := should_stop self;
     translated_count := translated_count self; executor := executor self;
     quota := quota self; used_quota := n;
     current_translation := current_translation self |}.

Definition with_deepl_api_key (self : Translator) (k : option string) : Translator :=
  {| deepl_api_key := k; should_stop := should_stop self;
     translated_count := translated_count self; executor := executor self;
     quota := quota self; used_quota := used_quota self;
     current_translation := current_translation self |}.

Definition with_executor (self : Translator) (ex : ThreadPoolExecutor) : Translator :=
  {| deepl_api_key := deepl_api_key self; should_stop := should_stop self;
     translated_count := translated_count self; executor := ex;
     quota := quota self; used_quota := used_quota self;
     current_translation := current_translation self |}.

Definition with_current_translation (self : Translator) (f : option (nat * nat)) : Translator :=
  {| deepl_api_key := deepl_api_key self; should_stop := should_stop self;
     translated_count := translated_count self; executor := executor self;
     quota := quota self; used_quota := used_quota self;
     current_translation := f |}.

(** ** The loop body of [translate_srt] *)

(** [Response.raise_for_status] raises for the status codes 400..599. *)
Definition is_http_error (status_code : Z) : bool :=
  ((400 <=? status_code) && (status_code <? 600))%Z.

(** [requests.post(DEEPL_API_URL, data={...})]: the request goes out; the
    world's reply is a response or an exception. *)
Definition requests_post (r : reply) (src dst : string) : Stmt (Z * (exn + string)) :=
  (self <- get_self ;;
   subtitle <- get_subtitle ;;
   emit (Post (deepl_api_key self) (text subtitle) src dst) ;;
   match r with
   | PostRaises e => raise e
   | Response status_code body => ret (status_code, body)
   end)%stmt.

Definition raise_for_status (response : Z * (exn + string)) : Stmt unit :=
  if is_http_error (fst response) then raise HTTPError else ret tt.

(** [response.json()['translations'][0]['text']] *)
Definition json_text (response : Z * (exn + string)) : Stmt string :=
  match snd response with
  | inl e => raise e
  | inr t => ret t
  end.

(** The progress fraction [translated_count / total_subtitles].  Python's
    float quotient is modelled by the exact rational, in lowest terms. *)
Definition fraction_of (count total : nat) : Q :=
  Qred (inject_Z (Z.of_nat count) / inject_Z (Z.of_nat total)).

Definition true_div (count total : nat) : Stmt Q :=
  match total with
  | O => raise ZeroDivisionError
  | S _ => ret (fraction_of count total)
  end.

(** Lines 129-145: the statements inside [try]. *)
Definition try_body (r : reply) (src dst : string) (total_subtitles : nat) : Stmt unit :=
  (response <- requests_post r src dst ;;
   raise_for_status response ;;
   translation <- json_text response ;;
   subtitle <- get_subtitle ;;
   put_subtitle (set_text subtitle translation) ;;
   subtitle <- get_subtitle ;;
   self <- get_self ;;
   put_self (with_used_quota self
               (used_quota self + Z.of_nat (String.length (text subtitle)))%Z) ;;
   self <- get_self ;;
   put_self (with_translated_count self (translated_count self + 1)) ;;
   self <- get_self ;;
   emit (QuotaCallback (used_quota self)) ;;
   self <- get_self ;;
   progress <- true_div (translated_count self) total_subtitles ;;
   emit (ProgressCallback progress))%stmt.

(** The [Translator] after lines 142-143 for a translation [t]. *)
Definition credited (self : Translator) (t : string) : Translator :=
  with_translated_count
    (with_used_quota self (used_quota self + Z.of_nat (String.length t))%Z)
    (translated_count self + 1).

(** How one pass through the loop body ends: at its last statement (the
    sleep), at a [continue] in a handler, or with an exception no handler
    took. *)
Inductive ending : Type := FellThrough | Continued | Escaped (e : exn).

(** The three [except] clauses, tried in order. *)
Definition handlers : list (exn_class * log_record) :=
  [ (HTTPError_, HttpErrorOccurred);
    (RequestException_, RequestErrorOccurred);
    (Exception_, UnexpectedErrorOccurred) ].

Fixpoint handle (hs : list (exn_class * log_record)) (e : exn) : list event * ending :=
  match hs with
  | [] => ([], Escaped e)
  | (cls, record) :: hs' =>
      if isinstance e cls then ([Log record], Continued) else handle hs' e
  end.

(** Lines 127-155: [try: ... except ...: continue] and then
    [time.sleep(SLEEP_TIME)]. *)
Definition loop_body (r : reply) (src dst : string) (total_subtitles : nat)
    (m : Mem) : Mem * list event * ending :=
  match try_body r src dst total_subtitles m with
  | (m', ev, inr _) => (m', ev ++ [Sleep], FellThrough)
  | (m', ev, inl e) =>
      let '(ev', how) := handle handlers e in (m', ev ++ ev', how)
  end.

(** ** The methods of [Translator] *)

(** [Translator.__init__]: the key comes from [config.ini], from the
    environment or from a dialog (which may give nothing), the pool size
    from [config.ini] or from a dialog. *)
Definition init (api_key : option string) (num_threads : nat) : Translator :=
  {| deepl_api_key := api_key;
     should_stop := false;
     translated_count := 0;
     executor := {| pool_id := 0; max_workers := num_threads; futures := [] |};
     quota := 500000%Z;
     used_quota := 0%Z;
     current_translation := None |}.

(** [stop_translation] (lines 180-185).  A future of a replaced pool is no
    longer followed. *)
Definition stop_translation (self : Translator) : Translator * list event :=
  let self := with_should_stop self true in
  let self :=
    match current_translation self with
    | Some (pool, fut) =>
        if pool =? pool_id (executor self)
        then with_executor self (cancel (executor self) fut)
        else self
    | None => self
    end in
  (self, [Log TranslationCancelled]).

(** How the [for] loop is left. *)
Inductive loop_exit : Type :=
| Exhausted                 (* no entry left *)
| Returned                  (* [return] at line 126 *)
| Raised (e : exn).         (* an exception left the loop body *)

Record LoopEnd : Type := mkLoopEnd {
  self_at_exit : Translator;
  subtitles_at_exit : list SubRipItem;
  events : list event;
  exit : loop_exit
}.

(** The flag [should_stop] is written by another thread: when the world
    says that "Stop Translation" was pressed, [stop_translation] has run
    by the time the loop reads the flag. *)
Definition before_check (w : World) (i : nat) (self : Translator)
    : Translator * list event :=
  if stop_pressed w i then stop_translation self else (self, []).

(** Lines 124-155.  [i] entries have been processed and [subs] are those
    left. *)
Fixpoint for_each (w : World) (j : Job) (total_subtitles : nat) (i : nat)
    (self : Translator) (subs : list SubRipItem) : LoopEnd :=
  match subs with
  | [] => mkLoopEnd self [] [] Exhausted
  | subtitle :: rest =>
      let '(self, ev0) := before_check w i self in
      if should_stop self then mkLoopEnd self (subtitle :: rest) ev0 Returned
      else
        match loop_body (reply_of w i) (src_lang j) (dest_lang j)
                total_subtitles (self, subtitle) with
        | ((self1, subtitle1), ev1, Escaped e) =>
            mkLoopEnd self1 (subtitle1 :: rest) (ev0 ++ ev1) (Raised e)
        | ((self1, subtitle1), ev1, _) =>
            let l := for_each w j total_subtitles (S i) self1 rest in
            mkLoopEnd (self_at_exit l) (subtitle1 :: subtitles_at_exit l)
              (ev0 ++ ev1 ++ events l) (exit l)
        end
  end.

(** How a call of [translate_srt] ends. *)
Inductive outcome : Type :=
| NotSrt                    (* [return] at line 116 *)
| OpenRaised                (* [pysrt.open] raised *)
| Cancelled                 (* [return] at line 126 *)
| LoopRaised (e : exn)
| Completed.                (* the end of the function, line 160 *)

Record Run : Type := mkRun {
  self_after : Translator;
  subtitles_after : list SubRipItem;   (* the entries in memory *)
  trace : list event;
  result : outcome
}.

Definition is_srt (path : string) : bool :=
  String.eqb (PyStr.lower (snd (PyStr.splitext path))) ".srt".

(** [translate_srt] (lines 111-160); writing the file is taken to
    succeed. *)
Definition translate_srt (w : World) (self : Translator) (j : Job) : Run :=
  if negb (is_srt (file_path j)) then
    mkRun self []
      [ShowErrorBox (String.append "The file "
         (String.append (file_path j)
            " is not an SRT file. Please convert it to SRT format."))]
      NotSrt
  else
    match disk w (file_path j) with
    | None => mkRun self [] [] OpenRaised
    | Some subtitles =>
        let total_subtitles := List.length subtitles in
        let self := with_translated_count self 0 in
        let l := for_each w j total_subtitles 0 self subtitles in
        let ev := Log (TotalSubtitles total_subtitles) :: events l in
        match exit l with
        | Returned => mkRun (self_at_exit l) (subtitles_at_exit l) ev Cancelled
        | Raised e =>
            mkRun (self_at_exit l) (subtitles_at_exit l) ev (LoopRaised e)
        | Exhausted =>
            mkRun (self_at_exit l) (subtitles_at_exit l)
              (ev ++ [SaveFile (output_path j) (subtitles_at_exit l);
                      Log (FileSaved (output_path j));
                      StatusCallback STATUS_TRANSLATION_COMPLETED])
              Completed
        end
    end.

(** [not self.deepl_api_key or len(self.deepl_api_key.strip()) == 0] *)
Definition key_missing (k : option string) : bool :=
  match k with
  | None => true
  | Some s => (String.length s =? 0) || (String.length (PyStr.strip s) =? 0)
  end.

Definition NO_API_KEY : string :=
  "No API key found. Please provide a valid DeepL API Key.".

Definition INVALID_FILE_TYPE : string :=
  String.append
    "Invalid file type. Only .srt files are supported. You can convert your "
    (String.append "non-SRT file to SRT using this online tool: "
       (String.append
          "https://www.veed.io/subtitle-tools/edit?locale=en&source=%2Ftools"
          "%2Fsubtitle-converter%2Fass-to-srt or use your own converter.")).

(** [start_translation] (lines 162-178). *)
Definition start_translation (self : Translator) (j : Job) : Translator * list event :=
  if key_missing (deepl_api_key self) then (self, [ErrorCallback NO_API_KEY])
  else
    let self := with_should_stop self false in
    if is_srt (file_path j) then
      let '(ex, fut) := submit (executor self) j in
      let self := with_executor self ex in
      let self := with_current_translation self (Some (pool_id ex, fut)) in
      (self, [StatusCallback "Translation started"; Submit j])
    else (self, [ShowErrorBox INVALID_FILE_TYPE]).


(** ** The handlers of [TranslatorGUI] that write to the [Translator] *)

(** [update_api_key] (lines 283-291): [answer] is what the dialog gives. *)
Definition update_api_key (self : Translator) (answer : option string)
    : Translator * list event :=
  match answer with
  | Some (String c s) => (with_deepl_api_key self (Some (String c s)), [])
  | _ => (self, [ShowErrorBox "API Key is missing. Please provide a valid API Key."])
  end.

(** [delete_api_key] (lines 293-302): [yes] is the answer to the question,
    [in_config] whether [config] has a section [DeepL]. *)
Definition delete_api_key (self : Translator) (yes in_config : bool) : Translator :=
  if yes && in_config then with_deepl_api_key self None else self.

(** [set_thread_count] (lines 304-306): a new pool takes the place of the
    old one. *)
Definition set_thread_count (self : Translator) (thread_count : nat) : Translator :=
  with_executor self
    {| pool_id := S (pool_id (executor self));
       max_workers := thread_count; futures := [] |}.

(** The states a [Translator] can be in: as constructed, and after any
    method call, handler, loop pass or stop request. *)
Inductive reachable : Translator -> Prop :=
| reach_init : forall k n, reachable (init k n)
| reach_start : forall self j,
    reachable self -> reachable (fst (start_translation self j))
| reach_stop : forall self,
    reachable self -> reachable (fst (stop_translation self))
| reach_translate : forall w self j,
    reachable self -> reachable (self_after (translate_srt w self j))
| reach_loop : forall w j total i self subs,
    reachable self ->
    reachable (self_at_exit (for_each w j total i self subs))
| reach_update_key : forall self a,
    reachable self -> reachable (fst (update_api_key self a))
| reach_delete_key : forall self y c,
    reachable self -> reachable (delete_api_key self y c)
| reach_thread_count : forall self n,
    reachable self -> reachable (set_thread_count self n).

(** ** Reading a trace *)

(** The request the loop sends for [sub]. *)
Definition post_for (j : Job) (self : Translator) (sub : SubRipItem) : event :=
  Post (deepl_api_key self) (text sub) (src_lang j) (dest_lang j).

Definition is_post (e : event) : bool :=
  match e with Post _ _ _ _ => true | _ => false end.

Definition is_sleep (e : event) : bool :=
  match e with Sleep => true | _ => false end.

Definition is_save (e : event) : bool :=
  match e with SaveFile _ _ => true | _ => false end.

Definition is_submit (e : event) : bool :=
  match e with Submit _ => true | _ => false end.



Definition is_completed_status (e : event) : bool :=
  match e with
  | StatusCallback s => String.eqb s STATUS_TRANSLATION_COMPLETED
  | _ => false
  end.

(** The kinds of event that lines 124-155 can leave (with the log record
    of a stop request made meanwhile). *)
Definition loop_event (e : event) : bool :=
  match e with
  | Post _ _ _ _ | QuotaCallback _ | ProgressCallback _ | Log _ | Sleep => true
  | _ => false
  end.

(** The fractions given to [progress_callback], in order. *)
Fixpoint progress_of (tr : list event) : list Q :=
  match tr with
  | [] => []
  | ProgressCallback q :: tr' => q :: progress_of tr'
  | _ :: tr' => progress_of tr'
  end.

(** Whether the try body runs to its end on this reply. *)
Definition succeeds (r : reply) : bool :=
  match r with
  | Response status_code (inr _) => negb (is_http_error status_code)
  | _ => false
  end.



(** The three ways a translation fails: the request itself raises, the
    response has an error status, or the decoding of the body raises. *)
Inductive failure : reply -> Prop :=
| transport_failure : forall e, failure (PostRaises e)
| http_failure : forall status_code body,
    is_http_error status_code = true -> failure (Response status_code body)
| decoding_failure : forall status_code e, failure (Response status_code (inl e)).

(** An entry after the loop body: as it was, or with a new text and the
    same number and timing. *)
Definition kept_or_translated (before after : SubRipItem) : Prop :=
  after = before \/ exists t, after = set_text before t.

(** ** Sample runs *)

Module Sample.

Definition three_entries : list SubRipItem :=
  [ mkItem 1 0 1500 "Good morning.";
    mkItem 2 1500 3000 "How are you?";
    mkItem 3 3000 4500 "See you." ].

Definition job : Job := mkJob "film.srt" "film.es.srt" "EN" "ES".

Definition translator : Translator := init (Some "0a1b2c:fx") 4.

Definition spanish (i : nat) : string :=
  match i with
  | 0 => "Buenos dias."
  | 1 => "Como estas?"
  | _ => "Hasta luego."
  end.

(** Every request is answered with a translation. *)
Definition all_translated : World :=
  {| reply_of := fun i => Response 200 (inr (spanish i));
     stop_pressed := fun _ => false;
     disk := fun _ => Some three_entries |}.

(** The second request is answered with status 500. *)
Definition second_refused : World :=
  {| reply_of := fun i =>
       match i with
       | 1 => Response 500 (inl JSONDecodeError)
       | _ => Response 200 (inr (spanish i))
       end;
     stop_pressed := fun _ => false;
     disk := fun _ => Some three_entries |}.

(** The first request is answered with status 429 (too many requests). *)
Definition first_throttled : World :=
  {| reply_of := fun i =>
       match i with
       | 0 => Response 429 (inl JSONDecodeError)
       | _ => Response 200 (inr (spanish i))
       end;
     stop_pressed := fun _ => false;
     disk := fun _ => Some three_entries |}.

(** "Stop Translation" is pressed when one entry has been processed. *)
Definition stopped_after_one : World :=
  {| reply_of := fun i => Response 200 (inr (spanish i));
     stop_pressed := fun i => i =? 1;
     disk := fun _ => Some three_entries |}.

(** The file has no entry. *)
Definition empty_file : World :=
  {| reply_of := fun i => Response 200 (inr (spanish i));
     stop_pressed := fun _ => false;
     disk := fun _ => Some [] |}.


End Sample.

(** ** More readers of a trace *)





(** ** Dictionaries

    A [dict] with [str] keys is the list of its items in insertion
    order. *)

Fixpoint dict_get {V : Type} (d : list (string * V)) (k : string) : option V :=
  match d with
  | [] => None                       (* d[k] raises KeyError *)
  | (k', v) :: d' => if String.eqb k k' then Some v else dict_get d' k
  end.

(** [d[k] = v]: a key already there keeps its place and takes the new
    value, a new key goes to the end. *)
Fixpoint dict_set {V : Type} (d : list (string * V)) (k : string) (v : V)
    : list (string * V) :=
  match d with
  | [] => [(k, v)]
  | (k', v') :: d' =>
      if String.eqb k k' then (k', v) :: d' else (k', v') :: dict_set d' k v
  end.

(** [{v: k for k, v in d.items()}] *)
Definition reversed (d : list (string * string)) : list (string * string) :=
  fold_left (fun acc kv => dict_set acc (snd kv) (fst kv)) d [].

(** Lines 34-48. *)
Definition iso_639_3_to_1 : list (string * string) :=
  [ ("AFR", "AF"); ("ARA", "AR"); ("DEU", "DE"); ("ENG", "EN");
    ("SPA", "ES"); ("FRA", "FR"); ("ITA", "IT"); ("JPN", "JA");
    ("DUT", "NL"); ("POL", "PL"); ("POR", "PT"); ("RUS", "RU");
    ("CHI", "ZH") ].

(** [Translator.get_supported_languages] (lines 91-109). *)
Definition get_supported_languages : list (string * string) :=
  [ ("AF", "Afrikaans"); ("AR", "Arabic"); ("DE", "German");
    ("EN", "English"); ("ES", "Spanish"); ("FR", "French");
    ("IT", "Italian"); ("JA", "Japanese"); ("NL", "Dutch");
    ("PL", "Polish"); ("PT", "Portuguese"); ("RU", "Russian");
    ("ZH", "Chinese") ].

(** ** The window

    Of [TranslatorGUI], the [Translator], the two path entries, the two
    language variables and the text of the status label (the progress bar
    and the quota label format numbers and are left out). *)

Record TranslatorGUI : Type := mkGUI {
  translator : Translator;
  file_entry : string;
  output_file_entry : string;
  src_lang_var : string;
  dest_lang_var : string;
  status_label : string
}.

(** The message boxes a handler opens. *)
Inductive dialog : Type :=
| ErrorBox (message : string)        (* messagebox.showerror *)
| InfoBox (message : string).        (* messagebox.showinfo *)

Definition STATUS_IDLE : string := "Status: Idle".

Module Gui.

Definition with_translator (g : TranslatorGUI) (t : Translator) : TranslatorGUI :=
  {| translator := t; file_entry := file_entry g;
     output_file_entry := output_file_entry g;
     src_lang_var := src_lang_var g; dest_lang_var := dest_lang_var g;
     status_label := status_label g |}.

Definition with_status_label (g : TranslatorGUI) (s : string) : TranslatorGUI :=
  {| translator := translator g; file_entry := file_entry g;
     output_file_entry := output_file_entry g;
     src_lang_var := src_lang_var g; dest_lang_var := dest_lang_var g;
     status_label := s |}.

(** [TranslatorGUI.__init__] (lines 193-280): empty entries, the first
    language name in both variables, the idle status. *)
Definition init (t : Translator) : TranslatorGUI :=
  let first :=
    match get_supported_languages with
    | (_, name) :: _ => name
    | [] => EmptyString
    end in
  {| translator := t; file_entry := EmptyString;
     output_file_entry := EmptyString;
     src_lang_var := first; dest_lang_var := first;
     status_label := STATUS_IDLE |}.

(** [update_status] (lines 357-360). *)
Definition update_status (g : TranslatorGUI) (status : string)
    : TranslatorGUI * list dialog :=
  (with_status_label g (String.append "Status: " status),
   if String.eqb status STATUS_TRANSLATION_COMPLETED
   then [InfoBox STATUS_TRANSLATION_COMPLETED] else []).

(** [show_error_message] (lines 350-352). *)
Definition show_error_message (message : string) : list dialog :=
  [ErrorBox message].

(** What an event of the [Translator] does to the window: the status and
    error callbacks are [update_status] and [show_error_message] (lines
    337-342), and the [Translator] opens its own error boxes. *)
Definition deliver (g : TranslatorGUI) (e : event) : TranslatorGUI * list dialog :=
  match e with
  | StatusCallback status => update_status g status
  | ErrorCallback message => (g, show_error_message message)
  | ShowErrorBox message => (g, [ErrorBox message])
  | _ => (g, [])
  end.

Fixpoint deliver_all (g : TranslatorGUI) (tr : list event)
    : TranslatorGUI * list dialog :=
  match tr with
  | [] => (g, [])
  | e :: tr' =>
      let '(g1, d1) := deliver g e in
      let '(g2, d2) := deliver_all g1 tr' in
      (g2, d1 ++ d2)
  end.

(** Python's truth value of a [str]. *)
Definition truthy (s : string) : bool :=
  match s with EmptyString => false | String _ _ => true end.

Definition BOTH_FILES : string :=
  "Both a subtitle file and an output file must be selected.".

Definition BOTH_LANGUAGES : string :=
  "Both a source language and a destination language must be selected.".

(** [TranslatorGUI.start_translation] (lines 318-344).  The result is the
    window, the boxes opened, and the exception that left the handler, if
    one did. *)
Definition start_translation (g : TranslatorGUI)
    : TranslatorGUI * list dialog * option exn :=
  let file_path := file_entry g in
  let output_file_path := output_file_entry g in
  let lang_dict := get_supported_languages in
  let rev_lang_dict := reversed lang_dict in
  match dict_get rev_lang_dict (src_lang_var g) with
  | None => (g, [], Some KeyError)
  | Some src_lang =>
      match dict_get rev_lang_dict (dest_lang_var g) with
      | None => (g, [], Some KeyError)
      | Some dest_lang =>
          if negb (truthy file_path) || negb (truthy output_file_path)
          then (g, [ErrorBox BOTH_FILES], None)
          else if negb (truthy src_lang) || negb (truthy dest_lang)
          then (g, [ErrorBox BOTH_LANGUAGES], None)
          else
            let '(t, ev) :=
              start_translation (translator g)
                (mkJob file_path output_file_path src_lang dest_lang) in
            let '(g', boxes) := deliver_all (with_translator g t) ev in
            (g', boxes, None)
      end
  end.

(** [TranslatorGUI.stop_translation] (lines 346-348). *)
Definition stop_translation (g : TranslatorGUI) : TranslatorGUI * list dialog :=
  let '(t, _) := stop_translation (translator g) in
  update_status (with_translator g t) STATUS_IDLE.

End Gui.

(** A window filled in for a translation from English to Polish. *)
Definition polish_window : TranslatorGUI :=
  mkGUI Sample.translator "film.srt" "film.pl.srt" "English" "Polish"
    STATUS_IDLE.

(** * Properties *)

(** ** The loop body *)

(** The last [except] clause takes every exception: a handler always
    logs and continues. *)
Lemma handle_handlers (e : exn) :
  exists record, handle handlers e = ([Log record], Continued).
Proof.
  destruct e; simpl; eauto.
Qed.

Lemma failure_iff (r : reply) : failure r <-> succeeds r = false.
Proof.
  split.
  - intros H. destruct H as [e | s b Hs | s e]; simpl; auto.
    destruct b; auto. now rewrite Hs.
  - destruct r as [e | s [e | t]]; simpl; intros H.
    + apply transport_failure.
    + apply decoding_failure.
    + apply http_failure. now destruct (is_http_error s).
Qed.

(** A failed translation: the request went out, one record was logged,
    nothing else happened. *)
Lemma loop_body_failure (r : reply) (src dst : string) (total : nat)
    (self : Translator) (sub : SubRipItem) :
  succeeds r = false ->
  exists record,
    loop_body r src dst total (self, sub)
    = ((self, sub),
       [Post (deepl_api_key self) (text sub) src dst; Log record],
       Continued).
Proof.
  intros Hr. unfold loop_body, try_body, requests_post, raise_for_status, bind.
  destruct r as [e | s [e | t]]; simpl in *.
  - destruct e; simpl; eauto.
  - destruct (is_http_error s); simpl; [eauto |].
    destruct e; simpl; eauto.
  - destruct (is_http_error s); simpl; [eauto | discriminate].
Qed.

Lemma loop_body_success (s : Z) (t src dst : string) (total : nat)
    (self : Translator) (sub : SubRipItem) :
  is_http_error s = false -> 0 < total ->
  loop_body (Response s (inr t)) src dst total (self, sub)
  = ((credited self t, set_text sub t),
     [Post (deepl_api_key self) (text sub) src dst;
      QuotaCallback (used_quota self + Z.of_nat (String.length t))%Z;
      ProgressCallback (fraction_of (translated_count self + 1) total);
      Sleep],
     FellThrough).
Proof.
  intros Hs Ht. destruct total as [| n]; [lia |].
  unfold loop_body, try_body, requests_post, raise_for_status, bind; simpl.
  rewrite Hs; simpl. reflexivity.
Qed.

(** ** The stop request *)

Lemma stop_translation_sets_flag (self : Translator) :
  should_stop (fst (stop_translation self)) = true.
Proof.
  unfold stop_translation.
  destruct (current_translation _) as [[pool fut] |]; simpl; auto.
  destruct (pool =? _); reflexivity.
Qed.

Lemma stop_translation_counters (self : Translator) :
  let self' := fst (stop_translation self) in
  translated_count self' = translated_count self
  /\ used_quota self' = used_quota self
  /\ quota self' = quota self
  /\ deepl_api_key self' = deepl_api_key self.
Proof.
  unfold stop_translation.
  destruct (current_translation _) as [[pool fut] |]; simpl; auto.
  destruct (pool =? _); simpl; auto.
Qed.

Lemma before_check_clear (w : World) (i : nat) (self : Translator) :
  should_stop (fst (before_check w i self)) = false ->
  stop_pressed w i = false /\ should_stop self = false
  /\ before_check w i self = (self, []).
Proof.
  unfold before_check. destruct (stop_pressed w i).
  - rewrite stop_translation_sets_flag. discriminate.
  - simpl. auto.
Qed.


Lemma before_check_no_callback (w : World) (i : nat) (self : Translator) :
  snd (before_check w i self) = [] \/
  snd (before_check w i self) = [Log TranslationCancelled].
Proof.
  unfold before_check. destruct (stop_pressed w i); simpl; auto.
Qed.

(** ** The three ways through one pass of the loop *)

Section OnePass.

Variables (w : World) (j : Job) (total : nat).

Lemma for_each_returns (i : nat) (self : Translator) (sub : SubRipItem)
    (rest : list SubRipItem) :
  should_stop (fst (before_check w i self)) = true ->
  for_each w j total i self (sub :: rest)
  = mkLoopEnd (fst (before_check w i self)) (sub :: rest)
      (snd (before_check w i self)) Returned.
Proof.
  intros H. simpl. destruct (before_check w i self) as [self0 ev0].
  simpl in *. now rewrite H.
Qed.

Lemma for_each_failure (i : nat) (self : Translator) (sub : SubRipItem)
    (rest : list SubRipItem) :
  should_stop (fst (before_check w i self)) = false ->
  succeeds (reply_of w i) = false ->
  exists record,
    for_each w j total i self (sub :: rest)
    = let l := for_each w j total (S i) self rest in
      mkLoopEnd (self_at_exit l) (sub :: subtitles_at_exit l)
        (post_for j self sub :: Log record :: events l) (exit l).
Proof.
  intros H Hr. destruct (before_check_clear _ _ _ H) as (_ & Hs & Hb).
  destruct (loop_body_failure (reply_of w i) (src_lang j) (dest_lang j)
              total self sub Hr) as [record Hl].
  exists record. simpl. rewrite Hb, Hs, Hl. reflexivity.
Qed.

Lemma for_each_success (i : nat) (self : Translator) (sub : SubRipItem)
    (rest : list SubRipItem) (s : Z) (t : string) :
  should_stop (fst (before_check w i self)) = false ->
  reply_of w i = Response s (inr t) -> is_http_error s = false ->
  0 < total ->
  for_each w j total i self (sub :: rest)
  = let l := for_each w j total (S i) (credited self t) rest in
    mkLoopEnd (self_at_exit l) (set_text sub t :: subtitles_at_exit l)
      (post_for j self sub
       :: QuotaCallback (used_quota self + Z.of_nat (String.length t))%Z
       :: ProgressCallback (fraction_of (translated_count self + 1) total)
       :: Sleep :: events l)
      (exit l).
Proof.
  intros H Hr Hs Ht. destruct (before_check_clear _ _ _ H) as (_ & Hf & Hb).
  simpl. rewrite Hb, Hf, Hr.
  rewrite (loop_body_success s t (src_lang j) (dest_lang j) total self sub
             Hs Ht).
  reflexivity.
Qed.

Lemma succeeds_inv (r : reply) :
  succeeds r = true ->
  exists s t, r = Response s (inr t) /\ is_http_error s = false.
Proof.
  destruct r as [e | s [e | t]]; simpl; try discriminate.
  intros H. exists s, t. split; auto. now destruct (is_http_error s).
Qed.

End OnePass.

(** ** Induction over the loop *)

Lemma loop_body_never_escapes (r : reply) (src dst : string) (total : nat)
    (m : Mem) (e : exn) :
  snd (loop_body r src dst total m) <> Escaped e.
Proof.
  unfold loop_body.
  destruct (try_body r src dst total m) as [[m' ev] [e' | u]].
  - destruct (handle_handlers e') as [record ->]. simpl. discriminate.
  - simpl. discriminate.
Qed.

Lemma for_each_never_raises (w : World) (j : Job) (total : nat)
    (subs : list SubRipItem) :
  forall (i : nat) (self : Translator) (e : exn),
    exit (for_each w j total i self subs) <> Raised e.
Proof.
  induction subs as [| sub rest IH]; intros i self e; simpl.
  - discriminate.
  - destruct (before_check w i self) as [self0 ev0].
    destruct (should_stop self0); simpl; [discriminate |].
    pose proof (loop_body_never_escapes (reply_of w i) (src_lang j)
                  (dest_lang j) total (self0, sub)) as Hn.
    destruct (loop_body _ _ _ _ _) as [[[self1 sub1] ev1] how].
    destruct how as [| | e']; simpl in *; try apply IH.
    now destruct (Hn e').
Qed.

Section Loop.

Variables (w : World) (j : Job) (total : nat).
Hypothesis total_positive : 0 < total.

(** Every pass returns on the stop flag, absorbs a failure, or stores a
    translation: a property of the loop follows from these three cases and
    the empty one. *)
Lemma for_each_cases
    (P : nat -> Translator -> list SubRipItem -> LoopEnd -> Prop) :
  (forall i self, P i self [] (mkLoopEnd self [] [] Exhausted)) ->
  (forall i self sub rest,
      should_stop (fst (before_check w i self)) = true ->
      P i self (sub :: rest)
        (mkLoopEnd (fst (before_check w i self)) (sub :: rest)
           (snd (before_check w i self)) Returned)) ->
  (forall i self sub rest record,
      stop_pressed w i = false -> should_stop self = false ->
      succeeds (reply_of w i) = false ->
      let l := for_each w j total (S i) self rest in
      P (S i) self rest l ->
      P i self (sub :: rest)
        (mkLoopEnd (self_at_exit l) (sub :: subtitles_at_exit l)
           (post_for j self sub :: Log record :: events l) (exit l))) ->
  (forall i self sub rest s t,
      stop_pressed w i = false -> should_stop self = false ->
      reply_of w i = Response s (inr t) -> is_http_error s = false ->
      let l := for_each w j total (S i) (credited self t) rest in
      P (S i) (credited self t) rest l ->
      P i self (sub :: rest)
        (mkLoopEnd (self_at_exit l) (set_text sub t :: subtitles_at_exit l)
           (post_for j self sub
            :: QuotaCallback (used_quota self + Z.of_nat (String.length t))%Z
            :: ProgressCallback
                 (fraction_of (translated_count self + 1) total)
            :: Sleep :: events l)
           (exit l))) ->
  forall subs i self, P i self subs (for_each w j total i self subs).
Proof.
  intros Hnil Hret Hfail Hok.
  induction subs as [| sub rest IH]; intros i self.
  - apply Hnil.
  - destruct (should_stop (fst (before_check w i self))) eqn:Hstop.
    + rewrite for_each_returns by assumption. now apply Hret.
    + destruct (before_check_clear _ _ _ Hstop) as (Hp & Hs & _).
      destruct (succeeds (reply_of w i)) eqn:Hr.
      * destruct (succeeds_inv _ Hr) as (s & t & Heq & Hst).
        rewrite (for_each_success w j total i self sub rest s t) by assumption.
        apply (Hok i self sub rest s t); auto.
      * destruct (for_each_failure w j total i self sub rest Hstop Hr)
          as [record ->].
        apply Hfail; auto.
Qed.

End Loop.

(** ** What the loop leaves behind *)

Section LoopFacts.

Variables (w : World) (j : Job) (total : nat).
Hypothesis total_positive : 0 < total.





(** Every entry keeps its number and timing, and its text unless a
    translation was stored. *)
Lemma for_each_entries (subs : list SubRipItem) (i : nat) (self : Translator) :
  Forall2 kept_or_translated subs
    (subtitles_at_exit (for_each w j total i self subs)).
Proof.
  apply (for_each_cases w j total total_positive
    (fun i self subs l =>
       Forall2 kept_or_translated subs (subtitles_at_exit l))).
  - simpl; constructor.
  - intros i0 self0 sub rest _. simpl.
    clear. induction (sub :: rest); constructor; auto. now left.
  - intros i0 self0 sub rest record _ _ _ l IH. simpl.
    constructor; auto. now left.
  - intros i0 self0 sub rest s t _ _ _ _ l IH. simpl.
    constructor; auto. right. now exists t.
Qed.


End LoopFacts.

(** ** The quota *)









(** ** Progress fractions *)





(** ** The credential test *)

Lemma lstrip_all_space (s : string) :
  PyStr.all_space s = true -> PyStr.lstrip s = EmptyString.
Proof.
  induction s as [| c s IH]; simpl; auto.
  destruct (PyStr.isspace c); simpl; [exact IH | discriminate].
Qed.

Lemma key_missing_blank (s : string) :
  PyStr.all_space s = true -> key_missing (Some s) = true.
Proof.
  intros H. unfold key_missing, PyStr.strip.
  rewrite (lstrip_all_space s H). simpl. apply orb_true_r.
Qed.

Lemma rstrip_empty (s : string) :
  PyStr.rstrip s = EmptyString -> PyStr.all_space s = true.
Proof.
  induction s as [| c s IH]; simpl; auto.
  destruct (PyStr.rstrip s); [| discriminate].
  destruct (PyStr.isspace c); [| discriminate].
  intros _. now apply IH.
Qed.

Lemma lstrip_keeps_rest (s : string) :
  PyStr.all_space (PyStr.lstrip s) = true -> PyStr.all_space s = true.
Proof.
  induction s as [| c s IH]; simpl; auto.
  destruct (PyStr.isspace c) eqn:Hc; simpl; auto.
  rewrite Hc. discriminate.
Qed.

(** The test rejects exactly the absent key and the keys made of white
    space only (the empty key among them). *)
Lemma key_missing_iff (k : option string) :
  key_missing k = true
  <-> k = None \/ exists s, k = Some s /\ PyStr.all_space s = true.
Proof.
  split.
  - destruct k as [s |]; [| now left]. intros H. right. exists s.
    split; auto. unfold key_missing in H. apply orb_true_iff in H.
    destruct H as [H | H]; apply Nat.eqb_eq in H.
    + destruct s; [reflexivity | discriminate].
    + apply lstrip_keeps_rest, rstrip_empty.
      unfold PyStr.strip in H. now destruct (PyStr.rstrip (PyStr.lstrip s)).
  - intros [-> | (s & -> & H)]; [reflexivity | now apply key_missing_blank].
Qed.

(** ** The events of the loop *)

Lemma loop_body_events (r : reply) (src dst : string) (total : nat)
    (m : Mem) :
  forallb loop_event (snd (fst (loop_body r src dst total m))) = true.
Proof.
  unfold loop_body, try_body, requests_post, raise_for_status, bind.
  destruct r as [e | s [e | t]]; simpl.
  - destruct e; reflexivity.
  - destruct (is_http_error s); simpl; [reflexivity |].
    destruct e; reflexivity.
  - destruct (is_http_error s); simpl; [reflexivity |].
    destruct total; reflexivity.
Qed.

Lemma for_each_events (w : World) (j : Job) (total : nat)
    (subs : list SubRipItem) :
  forall (i : nat) (self : Translator),
    forallb loop_event (events (for_each w j total i self subs)) = true.
Proof.
  induction subs as [| sub rest IH]; intros i self; simpl; auto.
  pose proof (before_check_no_callback w i self) as Hb.
  destruct (before_check w i self) as [self0 ev0]. simpl in Hb.
  assert (H0 : forallb loop_event ev0 = true)
    by (destruct Hb as [-> | ->]; reflexivity).
  destruct (should_stop self0); simpl; auto.
  pose proof (loop_body_events (reply_of w i) (src_lang j) (dest_lang j)
                total (self0, sub)) as H1.
  destruct (loop_body _ _ _ _ _) as [[[self1 sub1] ev1] how]. simpl in H1.
  destruct how; simpl; rewrite !forallb_app, ?H0, ?H1, ?IH; reflexivity.
Qed.

Lemma filter_none (p q : event -> bool) (tr : list event) :
  (forall e, q e = true -> p e = false) ->
  forallb q tr = true -> filter p tr = [].
Proof.
  intros Hpq. induction tr as [| e tr IH]; simpl; auto.
  intros H. apply andb_true_iff in H. destruct H as [He Htr].
  rewrite (Hpq e He). now apply IH.
Qed.



(** ** A call of [translate_srt] *)

(** A call that reaches line 160 opened the file and ran the loop to its
    end. *)
Lemma completed_run (w : World) (self : Translator) (j : Job)
    (subs : list SubRipItem) :
  disk w (file_path j) = Some subs ->
  result (translate_srt w self j) = Completed ->
  let l := for_each w j (List.length subs) 0 (with_translated_count self 0)
             subs in
  exit l = Exhausted
  /\ self_after (translate_srt w self j) = self_at_exit l
  /\ subtitles_after (translate_srt w self j) = subtitles_at_exit l
  /\ trace (translate_srt w self j)
     = Log (TotalSubtitles (List.length subs)) :: events l
       ++ [SaveFile (output_path j) (subtitles_at_exit l);
           Log (FileSaved (output_path j));
           StatusCallback STATUS_TRANSLATION_COMPLETED].
Proof.
  intros Hd. unfold translate_srt.
  destruct (negb (is_srt (file_path j))); [discriminate |].
  rewrite Hd. simpl.
  destruct (exit _) eqn:Hx; simpl; try discriminate. auto.
Qed.


Lemma nonempty_positive (sub : SubRipItem) (rest : list SubRipItem) :
  0 < List.length (sub :: rest).
Proof. simpl. lia. Qed.

(** * The claims *)

(** ** C1: failed entries and the counter *)




(** ** C2: the stop request *)




(** ** C3: progress notifications *)




(** ** C4: the empty document *)

(** C4, as stated, fails: with no entry the loop body never runs, and the
    progress callback, which only the loop body calls, is not invoked: no
    progress 1.0 is reported. *)
Lemma empty_file_progress_counterexample :
  ~ (forall w self j,
        key_missing (deepl_api_key self) = false ->
        is_srt (file_path j) = true ->
        disk w (file_path j) = Some [] ->
        let r := translate_srt w (fst (start_translation self j)) j in
        filter is_post (trace r) = []
        /\ In (ProgressCallback 1) (trace r)
        /\ In (StatusCallback STATUS_TRANSLATION_COMPLETED) (trace r)).
Proof.
  intros H.
  destruct (H Sample.empty_file Sample.translator Sample.job
              eq_refl eq_refl eq_refl) as (_ & Hin & _).
  vm_compute in Hin.
  repeat (destruct Hin as [Hin | Hin]; [discriminate |]). exact Hin.
Qed.

(** C4, amended: for the empty document, a started run (the key is there,
    the path is an .srt path: the call is submitted, and the worker runs
    it) makes no network call and no call of the progress callback, writes
    the empty document to the output path and reports
    [STATUS_TRANSLATION_COMPLETED] through the status callback. *)
Theorem empty_file_completes_silently (w : World) (self : Translator)
    (j : Job) :
  key_missing (deepl_api_key self) = false ->
  is_srt (file_path j) = true ->
  disk w (file_path j) = Some [] ->
  snd (start_translation self j)
  = [StatusCallback "Translation started"; Submit j]
  /\ let r := translate_srt w (fst (start_translation self j)) j in
     result r = Completed
     /\ trace r = [Log (TotalSubtitles 0);
                   SaveFile (output_path j) [];
                   Log (FileSaved (output_path j));
                   StatusCallback STATUS_TRANSLATION_COMPLETED]
     /\ filter is_post (trace r) = []
     /\ progress_of (trace r) = [].
Proof.
  intros Hk Hs Hd. unfold start_translation. rewrite Hk, Hs.
  destruct (submit _ j) as [ex fut]. simpl. split; [reflexivity |].
  unfold translate_srt. rewrite Hs, Hd. simpl. auto.
Qed.

Lemma empty_file_completes_silently_witness :
  key_missing (deepl_api_key Sample.translator) = false
  /\ is_srt (file_path Sample.job) = true
  /\ disk Sample.empty_file (file_path Sample.job) = Some []
  /\ snd (start_translation Sample.translator Sample.job)
     = [StatusCallback "Translation started"; Submit Sample.job]
  /\ (let r := translate_srt Sample.empty_file
                 (fst (start_translation Sample.translator Sample.job))
                 Sample.job in
      result r = Completed
      /\ trace r = [Log (TotalSubtitles 0);
                    SaveFile (output_path Sample.job) [];
                    Log (FileSaved (output_path Sample.job));
                    StatusCallback STATUS_TRANSLATION_COMPLETED]
      /\ filter is_post (trace r) = []
      /\ progress_of (trace r) = []).
Proof.
  do 3 (split; [reflexivity |]).
  exact (empty_file_completes_silently Sample.empty_file Sample.translator
           Sample.job eq_refl eq_refl eq_refl).
Defined.

(** ** C5: the quota used *)




(** ** C6: failures are absorbed *)



(** ** C7: the missing credential *)

(** C7: if [deepl_api_key] is absent or consists of white space only,
    [start_translation] reports the missing key through the error callback
    and returns: nothing is submitted to the executor and the [Translator]
    is as before. *)
Theorem missing_key_starts_nothing (self : Translator) (j : Job) :
  deepl_api_key self = None
  \/ (exists s, deepl_api_key self = Some s /\ PyStr.all_space s = true) ->
  start_translation self j = (self, [ErrorCallback NO_API_KEY])
  /\ filter is_submit (snd (start_translation self j)) = []
  /\ executor (fst (start_translation self j)) = executor self.
Proof.
  intros H. apply key_missing_iff in H.
  unfold start_translation. rewrite H. simpl. auto.
Qed.

Lemma missing_key_starts_nothing_witness :
  (deepl_api_key (init (Some "   ") 4) = None
   \/ (exists s, deepl_api_key (init (Some "   ") 4) = Some s
                 /\ PyStr.all_space s = true))
  /\ start_translation (init (Some "   ") 4) Sample.job
     = (init (Some "   ") 4, [ErrorCallback NO_API_KEY])
  /\ filter is_submit (snd (start_translation (init (Some "   ") 4) Sample.job))
     = []
  /\ executor (fst (start_translation (init (Some "   ") 4) Sample.job))
     = executor (init (Some "   ") 4).
Proof.
  assert (H : deepl_api_key (init (Some "   ") 4) = None
              \/ (exists s, deepl_api_key (init (Some "   ") 4) = Some s
                            /\ PyStr.all_space s = true)).
  { right. exists "   ". split; reflexivity. }
  split; [exact H |].
  exact (missing_key_starts_nothing (init (Some "   ") 4) Sample.job H).
Defined.

(** ** C8: the pacing delay *)

(** C8 at the failing input: the first of three requests is answered with
    status 429.  The handler's [continue] skips [time.sleep(SLEEP_TIME)]:
    the second request follows the log record at once, while after each of
    the two translations the delay is applied.  No failed pass of the loop
    body sleeps. *)
Example no_sleep_after_failed_request :
  trace (translate_srt Sample.first_throttled Sample.translator Sample.job)
  = [ Log (TotalSubtitles 3);
      Post (Some "0a1b2c:fx") "Good morning." "EN" "ES";
      Log HttpErrorOccurred;
      Post (Some "0a1b2c:fx") "How are you?" "EN" "ES";
      QuotaCallback 11;
      ProgressCallback (1 # 3);
      Sleep;
      Post (Some "0a1b2c:fx") "See you." "EN" "ES";
      QuotaCallback 23;
      ProgressCallback (2 # 3);
      Sleep;
      SaveFile "film.es.srt"
        [ mkItem 1 0 1500 "Good morning.";
          mkItem 2 1500 3000 "Como estas?";
          mkItem 3 3000 4500 "Hasta luego." ];
      Log (FileSaved "film.es.srt");
      StatusCallback STATUS_TRANSLATION_COMPLETED ]
  /\ (forall r src dst total self sub,
         failure r ->
         filter is_sleep (snd (fst (loop_body r src dst total (self, sub))))
         = []).
Proof.
  split; [reflexivity |].
  intros r src dst total self sub Hf. apply failure_iff in Hf.
  destruct (loop_body_failure r src dst total self sub Hf) as [record ->].
  reflexivity.
Qed.

(** ** C9: a second start *)

(** C9, as stated, fails: [start_translation] never looks at
    [current_translation] or at the pool.  On a [Translator] with four
    worker threads whose first job is running, a second call submits a
    second job, which runs beside the first. *)
Lemma second_start_rejected_counterexample :
  ~ (forall self j,
        reachable self ->
        0 < running_count (executor self) ->
        key_missing (deepl_api_key self) = false ->
        is_srt (file_path j) = true ->
        filter is_submit (snd (start_translation self j)) = []).
Proof.
  intros H.
  specialize (H (fst (start_translation Sample.translator Sample.job))
                Sample.job
                (reach_start Sample.translator Sample.job (reach_init _ _))
                (Nat.lt_0_succ 0) eq_refl eq_refl).
  vm_compute in H. discriminate.
Qed.

(** C9, amended: [start_translation] with a key and an .srt path submits a
    new run to the executor whatever the state of the [Translator], a job
    running or not: it clears the stop flag, reports "Translation started",
    queues the call and remembers its future; the call starts at once, next
    to those running, while fewer than [max_workers] are. *)
Theorem start_always_submits (self : Translator) (j : Job) :
  key_missing (deepl_api_key self) = false ->
  is_srt (file_path j) = true ->
  let self' := fst (start_translation self j) in
  snd (start_translation self j)
  = [StatusCallback "Translation started"; Submit j]
  /\ should_stop self' = false
  /\ (exists st, futures (executor self') = futures (executor self) ++ [(j, st)])
  /\ current_translation self'
     = Some (pool_id (executor self), List.length (futures (executor self)))
  /\ (running_count (executor self) < max_workers (executor self) ->
      running_count (executor self') = S (running_count (executor self))).
Proof.
  intros Hk Hs. unfold start_translation. rewrite Hk, Hs. simpl.
  repeat split; eauto.
  intros Hlt. unfold running_count. simpl.
  rewrite filter_app, length_app.
  apply Nat.ltb_lt in Hlt. unfold running_count in Hlt. rewrite Hlt.
  simpl. lia.
Qed.

Lemma start_always_submits_witness :
  key_missing
    (deepl_api_key (fst (start_translation Sample.translator Sample.job)))
  = false
  /\ is_srt (file_path Sample.job) = true
  /\ (let self := fst (start_translation Sample.translator Sample.job) in
      let self' := fst (start_translation self Sample.job) in
      snd (start_translation self Sample.job)
      = [StatusCallback "Translation started"; Submit Sample.job]
      /\ should_stop self' = false
      /\ (exists st, futures (executor self')
                     = futures (executor self) ++ [(Sample.job, st)])
      /\ current_translation self'
         = Some (pool_id (executor self),
                 List.length (futures (executor self)))
      /\ (running_count (executor self) < max_workers (executor self) ->
          running_count (executor self') = S (running_count (executor self)))).
Proof.
  do 2 (split; [reflexivity |]).
  exact (start_always_submits
           (fst (start_translation Sample.translator Sample.job)) Sample.job
           eq_refl eq_refl).
Defined.

(** ** C10: the quota ceiling *)




(** * More about the job *)

(** ** What a run does to the document *)

Lemma translate_srt_opened (w : World) (self : Translator) (j : Job)
    (subs : list SubRipItem) :
  is_srt (file_path j) = true ->
  disk w (file_path j) = Some subs ->
  let l := for_each w j (List.length subs) 0 (with_translated_count self 0)
             subs in
  self_after (translate_srt w self j) = self_at_exit l
  /\ subtitles_after (translate_srt w self j) = subtitles_at_exit l
  /\ exists tail,
       trace (translate_srt w self j)
       = Log (TotalSubtitles (List.length subs)) :: events l ++ tail
       /\ ((result (translate_srt w self j) = Completed
            /\ exit l = Exhausted
            /\ tail = [SaveFile (output_path j) (subtitles_at_exit l);
                       Log (FileSaved (output_path j));
                       StatusCallback STATUS_TRANSLATION_COMPLETED])
           \/ (result (translate_srt w self j) = Cancelled
               /\ exit l = Returned /\ tail = [])).
Proof.
  intros Hs Hd l. unfold translate_srt. rewrite Hs, Hd. simpl. fold l.
  pose proof (for_each_never_raises w j (List.length subs) subs 0
                (with_translated_count self 0)) as Hn. fold l in Hn.
  destruct (exit l) as [| | e] eqn:Hx; simpl.
  - repeat split. eexists. split; [reflexivity |]. left. auto.
  - repeat split. exists []. rewrite app_nil_r. split; [reflexivity |].
    right. auto.
  - now destruct (Hn e).
Qed.

Lemma kept_or_translated_timing (a b : SubRipItem) :
  kept_or_translated a b ->
  index b = index a /\ start b = start a /\ end_ b = end_ a.
Proof.
  intros [-> | [t ->]]; simpl; auto.
Qed.

Lemma kept_or_translated_all_timing (la lb : list SubRipItem) :
  Forall2 kept_or_translated la lb ->
  map (fun s => (index s, start s, end_ s)) lb
  = map (fun s => (index s, start s, end_ s)) la.
Proof.
  induction 1 as [| a b la lb Hab _ IH]; simpl; auto.
  destruct (kept_or_translated_timing a b Hab) as (-> & -> & ->).
  now rewrite IH.
Qed.

(** X1.  Whatever the replies and whenever the run is stopped, a run on a
    file that opens keeps the number of entries and the number and timing
    span of each: only texts change. *)
Theorem run_preserves_timing (w : World) (self : Translator) (j : Job)
    (subs : list SubRipItem) :
  is_srt (file_path j) = true ->
  disk w (file_path j) = Some subs ->
  map (fun s => (index s, start s, end_ s))
    (subtitles_after (translate_srt w self j))
  = map (fun s => (index s, start s, end_ s)) subs.
Proof.
  intros Hs Hd.
  destruct (translate_srt_opened w self j subs Hs Hd) as (_ & -> & _).
  destruct subs as [| sub rest]; [reflexivity |].
  apply kept_or_translated_all_timing.
  apply for_each_entries. apply nonempty_positive.
Qed.

Lemma run_preserves_timing_witness :
  is_srt (file_path Sample.job) = true
  /\ disk Sample.second_refused (file_path Sample.job)
     = Some Sample.three_entries
  /\ map (fun s => (index s, start s, end_ s))
       (subtitles_after
          (translate_srt Sample.second_refused Sample.translator Sample.job))
     = map (fun s => (index s, start s, end_ s)) Sample.three_entries.
Proof.
  do 2 (split; [reflexivity |]).
  exact (run_preserves_timing Sample.second_refused Sample.translator
           Sample.job Sample.three_entries eq_refl eq_refl).
Defined.


Section MoreLoopFacts.

Variables (w : World) (j : Job) (total : nat).
Hypothesis total_positive : 0 < total.


Lemma for_each_requests (subs : list SubRipItem) (i : nat) (self : Translator) :
  let l := for_each w j total i self subs in
  exists k,
    k <= List.length subs
    /\ filter is_post (events l) = map (post_for j self) (firstn k subs)
    /\ (exit l = Exhausted -> k = List.length subs).
Proof.
  apply (for_each_cases w j total total_positive
    (fun i self subs l =>
       exists k,
         k <= List.length subs
         /\ filter is_post (events l) = map (post_for j self) (firstn k subs)
         /\ (exit l = Exhausted -> k = List.length subs))).
  - intros. exists 0. simpl. auto.
  - intros i0 self0 sub rest _. exists 0. simpl.
    repeat split; [lia | | discriminate].
    destruct (before_check_no_callback w i0 self0) as [-> | ->]; reflexivity.
  - intros i0 self0 sub rest record _ _ _ l (k & Hk & Hp & Hx).
    exists (S k). simpl. rewrite Hp.
    repeat split; [lia |]. intros H. now rewrite (Hx H).
  - intros i0 self0 sub rest s t _ _ _ _ l (k & Hk & Hp & Hx).
    exists (S k). simpl. rewrite Hp.
    repeat split; [lia |]. intros H. now rewrite (Hx H).
Qed.



End MoreLoopFacts.





Lemma posts_of_run (w : World) (self : Translator) (j : Job)
    (subs : list SubRipItem) :
  is_srt (file_path j) = true ->
  disk w (file_path j) = Some subs ->
  filter is_post (trace (translate_srt w self j))
  = filter is_post
      (events (for_each w j (List.length subs) 0
                 (with_translated_count self 0) subs)).
Proof.
  intros Hs Hd.
  destruct (translate_srt_opened w self j subs Hs Hd)
    as (_ & _ & tail & -> & [(_ & _ & ->) | (_ & _ & ->)]);
    cbn [filter is_post]; rewrite filter_app; simpl;
    now rewrite app_nil_r.
Qed.

(** X3.  The requests of a run go out in document order, one for each of
    the first [k] entries for some [k], each with the key, the entry's
    original text and the two language codes; a run that reaches the end
    sent one for every entry. *)
Theorem requests_in_document_order (w : World) (self : Translator) (j : Job)
    (subs : list SubRipItem) :
  is_srt (file_path j) = true ->
  disk w (file_path j) = Some subs ->
  exists k,
    k <= List.length subs
    /\ filter is_post (trace (translate_srt w self j))
       = map (fun sub => Post (deepl_api_key self) (text sub)
                           (src_lang j) (dest_lang j))
           (firstn k subs)
    /\ (result (translate_srt w self j) = Completed -> k = List.length subs).
Proof.
  intros Hs Hd. rewrite (posts_of_run w self j subs Hs Hd).
  destruct subs as [| sub rest].
  { exists 0. simpl. auto. }
  destruct (for_each_requests w j _ (nonempty_positive sub rest)
              (sub :: rest) 0 (with_translated_count self 0))
    as (k & Hk & Hp & Hx).
  exists k. split; [exact Hk |]. split; [exact Hp |].
  intros Hc. apply Hx.
  now destruct (completed_run w self j (sub :: rest) Hd Hc).
Qed.

Lemma requests_in_document_order_witness :
  is_srt (file_path Sample.job) = true
  /\ disk Sample.stopped_after_one (file_path Sample.job)
     = Some Sample.three_entries
  /\ exists k,
       k <= List.length Sample.three_entries
       /\ filter is_post
            (trace (translate_srt Sample.stopped_after_one Sample.translator
                      Sample.job))
          = map (fun sub => Post (deepl_api_key Sample.translator) (text sub)
                              (src_lang Sample.job) (dest_lang Sample.job))
              (firstn k Sample.three_entries)
       /\ (result (translate_srt Sample.stopped_after_one Sample.translator
                     Sample.job) = Completed ->
           k = List.length Sample.three_entries).
Proof.
  do 2 (split; [reflexivity |]).
  exact (requests_in_document_order Sample.stopped_after_one Sample.translator
           Sample.job Sample.three_entries eq_refl eq_refl).
Defined.










(** ** The file and the final status *)

Lemma loop_trace_of_run (w : World) (self : Translator) (j : Job) :
  exists head tail,
    trace (translate_srt w self j) = head ++ tail
    /\ filter is_save head = []
    /\ filter is_completed_status head = []
    /\ ((result (translate_srt w self j) = Completed
         /\ tail = [SaveFile (output_path j)
                      (subtitles_after (translate_srt w self j));
                    Log (FileSaved (output_path j));
                    StatusCallback STATUS_TRANSLATION_COMPLETED])
        \/ (result (translate_srt w self j) <> Completed /\ tail = [])).
Proof.
  unfold translate_srt.
  destruct (negb (is_srt (file_path j))).
  { eexists; exists []. rewrite app_nil_r. simpl.
    repeat split; try reflexivity. right. split; [discriminate | reflexivity]. }
  destruct (disk w (file_path j)) as [subs |].
  2:{ exists [], []. simpl. repeat split. right.
      split; [discriminate | reflexivity]. }
  cbv zeta.
  pose proof (for_each_events w j (List.length subs) subs 0
                (with_translated_count self 0)) as Hev.
  set (l := for_each w j (List.length subs) 0 (with_translated_count self 0)
              subs) in *.
  assert (Hs : filter is_save
                 (Log (TotalSubtitles (List.length subs)) :: events l) = []).
  { simpl. apply (filter_none is_save loop_event); auto.
    intros e. now destruct e. }
  assert (Hc : filter is_completed_status
                 (Log (TotalSubtitles (List.length subs)) :: events l) = []).
  { simpl. apply (filter_none is_completed_status loop_event); auto.
    intros e. now destruct e. }
  exists (Log (TotalSubtitles (List.length subs)) :: events l).
  destruct (exit l); cbn [trace result subtitles_after].
  - eexists. split; [reflexivity |]. repeat split; auto.
  - exists []. rewrite app_nil_r. split; [reflexivity |].
    repeat split; auto. right. split; [discriminate | reflexivity].
  - exists []. rewrite app_nil_r. split; [reflexivity |].
    repeat split; auto. right. split; [discriminate | reflexivity].
Qed.

(** X7.  A call of [translate_srt] writes the output file at most once:
    exactly when it reaches its end, after everything else, with the
    entries as they are in memory then; and it reports
    [STATUS_TRANSLATION_COMPLETED], as its last event, in that case
    only. *)
Theorem saved_once_at_the_end (w : World) (self : Translator) (j : Job) :
  let r := translate_srt w self j in
  (result r = Completed ->
   filter is_save (trace r) = [SaveFile (output_path j) (subtitles_after r)]
   /\ filter is_completed_status (trace r)
      = [StatusCallback STATUS_TRANSLATION_COMPLETED]
   /\ exists before,
        trace r = before ++ [SaveFile (output_path j) (subtitles_after r);
                             Log (FileSaved (output_path j));
                             StatusCallback STATUS_TRANSLATION_COMPLETED]
        /\ filter is_post before = filter is_post (trace r))
  /\ (result r <> Completed ->
      filter is_save (trace r) = []
      /\ filter is_completed_status (trace r) = []).
Proof.
  intros r. unfold r.
  destruct (loop_trace_of_run w self j)
    as (head & tail & Ht & Hs & Hc & [[Hr ->] | [Hr ->]]).
  - split; [| intros H; now destruct H].
    intros _. rewrite Ht, !filter_app, Hs, Hc. simpl.
    repeat split. exists head. split; [reflexivity |].
    now rewrite app_nil_r.
  - split; [intros H; now destruct Hr |].
    intros _. rewrite Ht, app_nil_r. auto.
Qed.

(** ** The quota callback *)



(** ** A stop request made before the run *)



(** ** Starting and stopping *)

(** X10.  [start_translation] reports the missing key exactly when the key
    is absent or made of white space only: a key with one other character
    is never reported missing. *)
Theorem missing_key_reported_iff (self : Translator) (j : Job) :
  snd (start_translation self j) = [ErrorCallback NO_API_KEY]
  <-> (deepl_api_key self = None
       \/ exists s, deepl_api_key self = Some s /\ PyStr.all_space s = true).
Proof.
  rewrite <- key_missing_iff. unfold start_translation.
  destruct (key_missing (deepl_api_key self)).
  - simpl. split; auto.
  - destruct (is_srt (file_path j)); simpl; split; discriminate.
Qed.

(** X11.  A job that [start_translation] submits is never turned away by
    the extension test at the start of [translate_srt], in whatever state
    the worker finds the [Translator]. *)
Theorem submitted_job_is_srt (w : World) (self self' : Translator) (j j' : Job) :
  In (Submit j') (snd (start_translation self j)) ->
  j' = j /\ result (translate_srt w self' j') <> NotSrt.
Proof.
  unfold start_translation.
  destruct (key_missing (deepl_api_key self)).
  { simpl. intros [H | []]. discriminate. }
  destruct (is_srt (file_path j)) eqn:Hs; simpl.
  - intros [H | [H | []]]; [discriminate |].
    injection H as <-. split; [reflexivity |].
    unfold translate_srt. rewrite Hs. simpl.
    destruct (disk w (file_path j)); [| discriminate].
    destruct (exit _); discriminate.
  - intros [H | []]. discriminate.
Qed.

Lemma submitted_job_is_srt_witness :
  In (Submit Sample.job) (snd (start_translation Sample.translator Sample.job))
  /\ Sample.job = Sample.job
  /\ result (translate_srt Sample.all_translated Sample.translator Sample.job)
     <> NotSrt.
Proof.
  assert (H : In (Submit Sample.job)
                (snd (start_translation Sample.translator Sample.job)))
    by (right; left; reflexivity).
  split; [exact H |].
  exact (submitted_job_is_srt Sample.all_translated Sample.translator
           Sample.translator Sample.job Sample.job H).
Defined.

(** X12.  With a key but a path that is not an .srt path,
    [start_translation] opens the error box and submits nothing, and yet
    it has cleared the stop flag: a stop request made before it is
    forgotten. *)
Theorem wrong_file_type_clears_stop (self : Translator) (j : Job) :
  key_missing (deepl_api_key self) = false ->
  is_srt (file_path j) = false ->
  let stopped := fst (stop_translation self) in
  let self' := fst (start_translation stopped j) in
  snd (start_translation stopped j) = [ShowErrorBox INVALID_FILE_TYPE]
  /\ executor self' = executor stopped
  /\ current_translation self' = current_translation stopped
  /\ should_stop stopped = true
  /\ should_stop self' = false.
Proof.
  intros Hk Hs stopped self'. unfold self', start_translation.
  destruct (stop_translation_counters self) as (_ & _ & _ & Hkey).
  fold stopped in Hkey. rewrite Hkey, Hk, Hs. simpl.
  repeat split. apply stop_translation_sets_flag.
Qed.

Lemma wrong_file_type_clears_stop_witness :
  key_missing (deepl_api_key Sample.translator) = false
  /\ is_srt "film.ass" = false
  /\ (let j := mkJob "film.ass" "film.es.srt" "EN" "ES" in
      let stopped := fst (stop_translation Sample.translator) in
      let self' := fst (start_translation stopped j) in
      snd (start_translation stopped j) = [ShowErrorBox INVALID_FILE_TYPE]
      /\ executor self' = executor stopped
      /\ current_translation self' = current_translation stopped
      /\ should_stop stopped = true
      /\ should_stop self' = false).
Proof.
  do 2 (split; [reflexivity |]).
  exact (wrong_file_type_clears_stop Sample.translator
           (mkJob "film.ass" "film.es.srt" "EN" "ES") eq_refl eq_refl).
Defined.

(** X13.  [update_api_key] takes any non-empty answer, also one of white
    space only: it opens no box and stores the answer; the next
    [start_translation] then reports the key missing. *)
Theorem blank_key_is_stored_then_refused (self : Translator) (c : ascii)
    (s : string) (j : Job) :
  PyStr.all_space (String c s) = true ->
  let self' := fst (update_api_key self (Some (String c s))) in
  snd (update_api_key self (Some (String c s))) = []
  /\ deepl_api_key self' = Some (String c s)
  /\ start_translation self' j = (self', [ErrorCallback NO_API_KEY]).
Proof.
  intros H. cbn [update_api_key fst snd]. repeat split.
  unfold start_translation.
  change (deepl_api_key (with_deepl_api_key self (Some (String c s))))
    with (Some (String c s)).
  now rewrite (key_missing_blank (String c s) H).
Qed.

Lemma blank_key_is_stored_then_refused_witness :
  PyStr.all_space (String " "%char " ") = true
  /\ (let self' :=
        fst (update_api_key Sample.translator (Some (String " "%char " "))) in
      snd (update_api_key Sample.translator (Some (String " "%char " "))) = []
      /\ deepl_api_key self' = Some (String " "%char " ")
      /\ start_translation self' Sample.job
         = (self', [ErrorCallback NO_API_KEY])).
Proof.
  split; [reflexivity |].
  exact (blank_key_is_stored_then_refused Sample.translator " "%char " "
           Sample.job eq_refl).
Defined.

Lemma update_nth_last {A : Type} (f : A -> A) (l : list A) (x : A) :
  update_nth (List.length l) f (l ++ [x]) = l ++ [f x].
Proof.
  induction l as [| y l IH]; simpl; auto. now rewrite IH.
Qed.

(** X14.  A job started while every worker of the pool is busy waits in
    the queue, and [stop_translation] cancels it there: it will never run.
    A job started while a worker is free runs at once, and
    [stop_translation] leaves it running: only the flag can end it. *)
Theorem stop_cancels_a_queued_job (self : Translator) (j : Job) :
  key_missing (deepl_api_key self) = false ->
  is_srt (file_path j) = true ->
  let started := fst (start_translation self j) in
  let stopped := fst (stop_translation started) in
  should_stop stopped = true
  /\ (max_workers (executor self) <= running_count (executor self) ->
      futures (executor started) = futures (executor self) ++ [(j, Pending)]
      /\ futures (executor stopped)
         = futures (executor self) ++ [(j, CancelledFuture)])
  /\ (running_count (executor self) < max_workers (executor self) ->
      futures (executor started) = futures (executor self) ++ [(j, Running)]
      /\ futures (executor stopped)
         = futures (executor self) ++ [(j, Running)]).
Proof.
  intros Hk Hs started stopped.
  split; [apply stop_translation_sets_flag |].
  unfold stopped, started, start_translation. rewrite Hk, Hs.
  unfold stop_translation, submit. cbn -[Nat.ltb].
  rewrite Nat.eqb_refl. cbn -[Nat.ltb].
  split; intros H.
  - apply Nat.ltb_ge in H. rewrite H. rewrite update_nth_last. auto.
  - apply Nat.ltb_lt in H. rewrite H. rewrite update_nth_last. auto.
Qed.

Lemma stop_cancels_a_queued_job_witness :
  key_missing
    (deepl_api_key
       (fst (start_translation (init (Some "0a1b2c:fx") 1) Sample.job)))
  = false
  /\ is_srt (file_path Sample.job) = true
  /\ (let self :=
        fst (start_translation (init (Some "0a1b2c:fx") 1) Sample.job) in
      let started := fst (start_translation self Sample.job) in
      let stopped := fst (stop_translation started) in
      should_stop stopped = true
      /\ (max_workers (executor self) <= running_count (executor self) ->
          futures (executor started)
          = futures (executor self) ++ [(Sample.job, Pending)]
          /\ futures (executor stopped)
             = futures (executor self) ++ [(Sample.job, CancelledFuture)])
      /\ (running_count (executor self) < max_workers (executor self) ->
          futures (executor started)
          = futures (executor self) ++ [(Sample.job, Running)]
          /\ futures (executor stopped)
             = futures (executor self) ++ [(Sample.job, Running)])).
Proof.
  do 2 (split; [reflexivity |]).
  exact (stop_cancels_a_queued_job
           (fst (start_translation (init (Some "0a1b2c:fx") 1) Sample.job))
           Sample.job eq_refl eq_refl).
Defined.

(** * The language tables and the window *)

(** ** Reversing a dictionary *)

Lemma dict_get_set_same {V : Type} (d : list (string * V)) (k : string)
    (v : V) :
  dict_get (dict_set d k v) k = Some v.
Proof.
  induction d as [| [k' v'] d IH]; simpl.
  - now rewrite String.eqb_refl.
  - destruct (String.eqb k k') eqn:E; simpl; rewrite E; auto.
Qed.

Lemma dict_get_set_other {V : Type} (d : list (string * V)) (k k' : string)
    (v : V) :
  k' <> k -> dict_get (dict_set d k v) k' = dict_get d k'.
Proof.
  intros Hne. induction d as [| [k0 v0] d IH]; simpl.
  - apply String.eqb_neq in Hne. now rewrite Hne.
  - destruct (String.eqb k k0) eqn:E; simpl.
    + apply String.eqb_eq in E. subst k0.
      apply String.eqb_neq in Hne. now rewrite Hne.
    + now rewrite IH.
Qed.

Lemma reversed_untouched (d acc : list (string * string)) (v : string) :
  ~ In v (map snd d) ->
  dict_get (fold_left (fun acc kv => dict_set acc (snd kv) (fst kv)) d acc) v
  = dict_get acc v.
Proof.
  revert acc. induction d as [| [k0 v0] d IH]; intros acc Hn; simpl; auto.
  simpl in Hn. rewrite IH by tauto.
  apply dict_get_set_other. intros ->. tauto.
Qed.

Lemma reversed_found (d acc : list (string * string)) (k v : string) :
  NoDup (map snd d) -> In (k, v) d ->
  dict_get (fold_left (fun acc kv => dict_set acc (snd kv) (fst kv)) d acc) v
  = Some k.
Proof.
  revert acc. induction d as [| [k0 v0] d IH]; intros acc Hnd Hin;
    [destruct Hin |].
  simpl in Hnd. inversion Hnd as [| x xs Hnotin Hnd']; subst.
  destruct Hin as [Heq | Hin]; simpl.
  - injection Heq as -> ->.
    rewrite reversed_untouched by assumption. apply dict_get_set_same.
  - now apply IH.
Qed.

Lemma reversed_get (d : list (string * string)) (k v : string) :
  NoDup (map snd d) -> In (k, v) d -> dict_get (reversed d) v = Some k.
Proof.
  intros Hnd Hin. unfold reversed. now apply reversed_found.
Qed.

(** X15.  The dictionary comprehension that swaps keys and values loses
    nothing when the values are distinct: every value leads back to its
    key.  The names of the supported languages are distinct, so each name
    chosen in the window leads back to its language code. *)
Theorem reversed_leads_back (d : list (string * string)) (k v : string) :
  NoDup (map snd d) -> In (k, v) d -> dict_get (reversed d) v = Some k.
Proof.
  intros Hnd Hin. unfold reversed.
  apply reversed_found; assumption.
Qed.

Lemma language_names_distinct : NoDup (map snd get_supported_languages).
Proof.
  simpl. repeat constructor; simpl; intuition discriminate.
Qed.

Lemma reversed_leads_back_witness :
  NoDup (map snd get_supported_languages)
  /\ In ("PL", "Polish") get_supported_languages
  /\ dict_get (reversed get_supported_languages) "Polish" = Some "PL".
Proof.
  assert (Hin : In ("PL", "Polish") get_supported_languages)
    by (do 9 right; left; reflexivity).
  split; [exact language_names_distinct |]. split; [exact Hin |].
  exact (reversed_leads_back get_supported_languages "PL" "Polish"
           language_names_distinct Hin).
Defined.

(** ** The handlers of the window *)

Lemma language_code_of_name (name code : string) :
  dict_get (reversed get_supported_languages) name = Some code ->
  In (code, name) get_supported_languages /\ Gui.truthy code = true.
Proof.
  intros H.
  let t := eval vm_compute in (reversed get_supported_languages) in
  change (reversed get_supported_languages) with t in H.
  cbn [dict_get] in H.
  repeat match type of H with
         | context [String.eqb name ?s] =>
             destruct (String.eqb name s) eqn:E;
             [ apply String.eqb_eq in E; subst name; injection H as <-;
               split; [simpl; tauto | reflexivity]
             | clear E ]
         end.
  discriminate.
Qed.

Lemma language_name_known (name : string) :
  In name (map snd get_supported_languages) ->
  exists code, dict_get (reversed get_supported_languages) name = Some code.
Proof.
  intros H. apply in_map_iff in H. destruct H as ([code name'] & <- & Hin).
  exists code. apply reversed_get; auto.
  apply language_names_distinct.
Qed.

(** X16.  The window's "Start Translation" starts nothing unless both
    paths are given: with an empty subtitle path or an empty output path
    the window and its [Translator] are as before, and the one box that
    opens (when both language names are known) asks for both files. *)
Theorem no_start_without_both_paths (g : TranslatorGUI) :
  file_entry g = EmptyString \/ output_file_entry g = EmptyString ->
  fst (fst (Gui.start_translation g)) = g
  /\ (snd (Gui.start_translation g) = None ->
      snd (fst (Gui.start_translation g)) = [ErrorBox Gui.BOTH_FILES])
  /\ (snd (Gui.start_translation g) <> None ->
      snd (fst (Gui.start_translation g)) = []).
Proof.
  intros H. unfold Gui.start_translation.
  destruct (dict_get _ (src_lang_var g)) as [src |];
    [| simpl; split; [reflexivity | split; [discriminate | reflexivity]]].
  destruct (dict_get _ (dest_lang_var g)) as [dst |];
    [| simpl; split; [reflexivity | split; [discriminate | reflexivity]]].
  assert (Hb : negb (Gui.truthy (file_entry g))
               || negb (Gui.truthy (output_file_entry g)) = true).
  { destruct H as [-> | ->]; simpl; auto using orb_true_r. }
  rewrite Hb. simpl.
  split; [reflexivity | split; [reflexivity |]].
  intros X. now destruct X.
Qed.

Lemma no_start_without_both_paths_witness :
  (file_entry (Gui.init Sample.translator) = EmptyString
   \/ output_file_entry (Gui.init Sample.translator) = EmptyString)
  /\ fst (fst (Gui.start_translation (Gui.init Sample.translator)))
     = Gui.init Sample.translator
  /\ (snd (Gui.start_translation (Gui.init Sample.translator)) = None ->
      snd (fst (Gui.start_translation (Gui.init Sample.translator)))
      = [ErrorBox Gui.BOTH_FILES])
  /\ (snd (Gui.start_translation (Gui.init Sample.translator)) <> None ->
      snd (fst (Gui.start_translation (Gui.init Sample.translator))) = []).
Proof.
  assert (H : file_entry (Gui.init Sample.translator) = EmptyString
              \/ output_file_entry (Gui.init Sample.translator) = EmptyString)
    by (left; reflexivity).
  split; [exact H |].
  exact (no_start_without_both_paths (Gui.init Sample.translator) H).
Defined.

Lemma deliver_all_start (g : TranslatorGUI) (t : Translator) (j : Job) :
  ~ In (ErrorBox Gui.BOTH_LANGUAGES)
      (snd (Gui.deliver_all g (snd (start_translation t j)))).
Proof.
  unfold start_translation.
  destruct (key_missing (deepl_api_key t)).
  { simpl. intros [H | []]. discriminate. }
  destruct (is_srt (file_path j)).
  - destruct (submit (executor t) j) as [ex fut]. simpl. tauto.
  - simpl. intros [H | []]. discriminate.
Qed.

(** X17.  The handler's second test, on the language codes, can never
    fail: no state of the window makes it open the box that asks for the
    two languages, because every name the reversed table knows has a
    non-empty code.  A name the table does not know ends the handler with
    a [KeyError] instead, and nothing else does. *)
Theorem language_box_never_opens (g : TranslatorGUI) :
  ~ In (ErrorBox Gui.BOTH_LANGUAGES) (snd (fst (Gui.start_translation g)))
  /\ (snd (Gui.start_translation g) = Some KeyError
      <-> ~ (In (src_lang_var g) (map snd get_supported_languages)
             /\ In (dest_lang_var g) (map snd get_supported_languages)))
  /\ (snd (Gui.start_translation g) = None
      \/ snd (Gui.start_translation g) = Some KeyError).
Proof.
  unfold Gui.start_translation.
  destruct (dict_get _ (src_lang_var g)) as [src |] eqn:Hsrc.
  2:{ cbn [fst snd]. split; [intros []|]. split; [| right; reflexivity].
      split; [| reflexivity].
      intros _ [H _]. destruct (language_name_known _ H) as [c Hc].
      congruence. }
  destruct (dict_get _ (dest_lang_var g)) as [dst |] eqn:Hdst.
  2:{ cbn [fst snd]. split; [intros []|]. split; [| right; reflexivity].
      split; [| reflexivity].
      intros _ [_ H]. destruct (language_name_known _ H) as [c Hc].
      congruence. }
  destruct (language_code_of_name _ _ Hsrc) as [Hin1 Ht1].
  destruct (language_code_of_name _ _ Hdst) as [Hin2 Ht2].
  assert (Hknown : In (src_lang_var g) (map snd get_supported_languages)
                   /\ In (dest_lang_var g) (map snd get_supported_languages)).
  { split; [apply (in_map snd _ _ Hin1) | apply (in_map snd _ _ Hin2)]. }
  rewrite Ht1, Ht2. cbn [negb orb].
  destruct (negb (Gui.truthy (file_entry g))
            || negb (Gui.truthy (output_file_entry g))).
  - cbn [fst snd].
    split; [intros [H | []]; discriminate |].
    split; [| left; reflexivity].
    split; [discriminate | intros Hn; now destruct Hn].
  - pose proof (deliver_all_start
                  (Gui.with_translator g
                     (fst (start_translation (translator g)
                             (mkJob (file_entry g) (output_file_entry g)
                                src dst))))
                  (translator g)
                  (mkJob (file_entry g) (output_file_entry g) src dst)) as Hd.
    destruct (start_translation (translator g) _) as [t ev].
    cbn [fst snd] in Hd.
    destruct (Gui.deliver_all _ ev) as [g' boxes]. cbn [fst snd] in *.
    split; [exact Hd |]. split; [| left; reflexivity].
    split; [discriminate | intros Hn; now destruct Hn].
Qed.

(** X18.  With both paths given, both language names from the table, a
    key and an .srt path, "Start Translation" hands the [Translator] the
    two paths and the codes of the two names, the status label reads
    "Status: Translation started", and no box opens. *)
Theorem start_button_starts (g : TranslatorGUI) (src dst : string) :
  Gui.truthy (file_entry g) = true ->
  Gui.truthy (output_file_entry g) = true ->
  In (src, src_lang_var g) get_supported_languages ->
  In (dst, dest_lang_var g) get_supported_languages ->
  key_missing (deepl_api_key (translator g)) = false ->
  is_srt (file_entry g) = true ->
  let j := mkJob (file_entry g) (output_file_entry g) src dst in
  Gui.start_translation g
  = (Gui.with_status_label
       (Gui.with_translator g (fst (start_translation (translator g) j)))
       "Status: Translation started",
     [], None)
  /\ snd (start_translation (translator g) j)
     = [StatusCallback "Translation started"; Submit j].
Proof.
  intros Hf Ho Hsrc Hdst Hk Hs j.
  pose proof (reversed_get get_supported_languages src
                (src_lang_var g) language_names_distinct Hsrc) as H1.
  pose proof (reversed_get get_supported_languages dst
                (dest_lang_var g) language_names_distinct Hdst) as H2.
  destruct (language_code_of_name _ _ H1) as [_ Ht1].
  destruct (language_code_of_name _ _ H2) as [_ Ht2].
  unfold Gui.start_translation. rewrite H1, H2, Hf, Ho, Ht1, Ht2.
  cbn [negb orb]. fold j.
  unfold start_translation. rewrite Hk. unfold j at 1 3. cbn [file_path].
  rewrite Hs. destruct (submit _ j) as [ex fut]. simpl.
  rewrite Hs. simpl. auto.
Qed.

Lemma start_button_starts_witness :
  Gui.truthy (file_entry polish_window) = true
  /\ Gui.truthy (output_file_entry polish_window) = true
  /\ In ("EN", src_lang_var polish_window) get_supported_languages
  /\ In ("PL", dest_lang_var polish_window) get_supported_languages
  /\ key_missing (deepl_api_key (translator polish_window)) = false
  /\ is_srt (file_entry polish_window) = true
  /\ (let j := mkJob (file_entry polish_window)
                 (output_file_entry polish_window) "EN" "PL" in
      Gui.start_translation polish_window
      = (Gui.with_status_label
           (Gui.with_translator polish_window
              (fst (start_translation (translator polish_window) j)))
           "Status: Translation started",
         [], None)
      /\ snd (start_translation (translator polish_window) j)
         = [StatusCallback "Translation started"; Submit j]).
Proof.
  assert (H1 : In ("EN", src_lang_var polish_window) get_supported_languages)
    by (do 3 right; left; reflexivity).
  assert (H2 : In ("PL", dest_lang_var polish_window) get_supported_languages)
    by (do 9 right; left; reflexivity).
  do 2 (split; [reflexivity |]). split; [exact H1 |]. split; [exact H2 |].
  do 2 (split; [reflexivity |]).
  exact (start_button_starts polish_window "EN" "PL" eq_refl eq_refl H1 H2
           eq_refl eq_refl).
Defined.

(** X19.  "Stop Translation" sets the stop flag of the [Translator] and
    opens no box; it passes the whole idle text to [update_status], which
    puts "Status: " before it: the label reads "Status: Status: Idle", not
    the idle text the window started with. *)
Theorem stop_button_label (g : TranslatorGUI) :
  let g' := fst (Gui.stop_translation g) in
  should_stop (translator g') = true
  /\ translator g' = fst (stop_translation (translator g))
  /\ status_label g' = "Status: Status: Idle"
  /\ status_label g' <> status_label (Gui.init (translator g))
  /\ snd (Gui.stop_translation g) = [].
Proof.
  unfold Gui.stop_translation.
  pose proof (stop_translation_sets_flag (translator g)) as Hf.
  destruct (stop_translation (translator g)) as [t ev].
  cbn [fst snd] in *. unfold Gui.update_status. cbn [fst snd].
  repeat split; auto. discriminate.
Qed.

(** ** A run seen from the window *)




